(** * Contract types and domain assembler: a shallow embedding

    The development follows the two source files of the repository:

    - [shared/types.py]: the dataclasses exchanged between the cognitive and
      the embodiment layer.  Each dataclass is a record in a module of its
      own, with [init] for the constructor that [@dataclass] generates.
    - [scripts/domain_assembler.py]: the generator of [domain.yaml], run
      against a model of the file system and of standard output.

    Python's [float] is IEEE binary64, here the kernel's primitive [float];
    [Dict] with string keys is a [gmap]; dictionaries whose key order is
    observable (the domain written out with [sort_keys=False]) are
    association lists. *)

From Stdlib Require Import ZArith String Ascii.
From Stdlib Require Import Floats.PrimFloat Floats.SpecFloat Floats.FloatOps.
From Stdlib Require Import Floats.FloatAxioms.
From stdpp Require Import base option list gmap strings pretty.

Local Open Scope string_scope.
Local Open Scope Z_scope.
Local Set Warnings "-register-all,-inexact-float".

(** ** Python values *)

(** The values that occur where the source says [Any], and in the nested
    dictionary that [generate_test_domain] builds. *)
Inductive pyval : Type :=
| PNone
| PBool (b : bool)
| PInt (z : Z)
| PFloat (f : float)
| PStr (s : string)
| PList (items : list pyval)
| PDict (entries : list (string * pyval)).

(** An argument with a default value is passed as [Some v], or left out. *)
Definition arg (A : Type) : Type := option A.
Definition or_default {A : Type} (d : A) (a : arg A) : A :=
  match a with
  | Some v => v
  | None => d
  end.

(** ** shared/types.py *)

Module SpatialContext.
Record t : Type := mk {
  position : float * float;
  orientation : float;
  zone : option string
}.

Definition init (position : float * float) (orientation : float)
    (zone : arg (option string)) : t :=
  mk position orientation (or_default None zone).
End SpatialContext.

Module ActionContext.
Record t : Type := mk {
  target_object : option string;
  progress : float;
  metadata : gmap string pyval
}.

Definition init (target_object : arg (option string)) (progress : arg float)
    (metadata : arg (gmap string pyval)) : t :=
  mk (or_default None target_object)
     (or_default 0%float progress)
     (or_default ∅ metadata).
End ActionContext.

Module Observation.
Record t : Type := mk {
  timestamp : float;
  agent_id : string;
  detected_microaction : string;
  spatial_context : SpatialContext.t;
  action_context : ActionContext.t;
  confidence : float
}.

Definition init (timestamp : float) (agent_id detected_microaction : string)
    (spatial_context : SpatialContext.t) (action_context : ActionContext.t)
    (confidence : arg float) : t :=
  mk timestamp agent_id detected_microaction spatial_context action_context
     (or_default 1%float confidence).
End Observation.

Module BeliefState.
Record t : Type := mk {
  timestamp : float;
  agent_id : string;
  distribution : gmap string float;
  most_likely : string;
  confidence : float;
  predicted_next_actions : gmap string (list string)
}.

Definition init (timestamp : float) (agent_id : string)
    (distribution : gmap string float) (most_likely : string)
    (confidence : float)
    (predicted_next_actions : arg (gmap string (list string))) : t :=
  mk timestamp agent_id distribution most_likely confidence
     (or_default ∅ predicted_next_actions).
End BeliefState.

Module AgentState.
Record t : Type := mk {
  agent_id : string;
  current_zone : string;
  holding : option string;
  current_task : option string;
  metadata : gmap string pyval
}.

Definition init (agent_id current_zone : string)
    (holding current_task : arg (option string))
    (metadata : arg (gmap string pyval)) : t :=
  mk agent_id current_zone (or_default None holding)
     (or_default None current_task) (or_default ∅ metadata).
End AgentState.

Module WorldState.
Record t : Type := mk {
  timestamp : float;
  agent_states : gmap string AgentState.t;
  object_locations : gmap string string;
  predicates : gset string;
  metadata : gmap string pyval
}.

Definition init (timestamp : float) (agent_states : gmap string AgentState.t)
    (object_locations : gmap string string) (predicates : arg (gset string))
    (metadata : arg (gmap string pyval)) : t :=
  mk timestamp agent_states object_locations (or_default ∅ predicates)
     (or_default ∅ metadata).
End WorldState.

(** The closed enumeration of action kinds, with the string each member
    carries as its value. *)
Inductive ActionType : Type := NAVIGATE | PICK | PLACE | WAIT | HANDOVER.

Definition ActionType_value (a : ActionType) : string :=
  match a with
  | NAVIGATE => "navigate"
  | PICK => "pick"
  | PLACE => "place"
  | WAIT => "wait"
  | HANDOVER => "handover"
  end.

(** [list(ActionType)], in the order of definition, and [ActionType(v)],
    the member that carries the value [v]; [None] where Python raises
    [ValueError]. *)
Definition ActionType_members : list ActionType :=
  [NAVIGATE; PICK; PLACE; WAIT; HANDOVER].

Definition ActionType_of_value (v : string) : option ActionType :=
  List.find (fun a => String.eqb (ActionType_value a) v) ActionType_members.

Module AbstractAction.
Record t : Type := mk {
  action_type : ActionType;
  parameters : gmap string pyval;
  estimated_path : option (list (float * float));
  estimated_duration : float;
  spatial_constraints : gmap string pyval;
  temporal_constraints : gmap string pyval
}.

Definition init (action_type : ActionType) (parameters : gmap string pyval)
    (estimated_path : arg (option (list (float * float))))
    (estimated_duration : arg float)
    (spatial_constraints temporal_constraints : arg (gmap string pyval)) : t :=
  mk action_type parameters (or_default None estimated_path)
     (or_default 0%float estimated_duration)
     (or_default ∅ spatial_constraints)
     (or_default ∅ temporal_constraints).
End AbstractAction.

Module AbstractPlan.
Record t : Type := mk {
  goal_intention : string;
  actions : list AbstractAction.t;
  estimated_total_cost : float;
  contingencies : gmap string pyval;
  metadata : gmap string pyval
}.

Definition init (goal_intention : string) (actions : list AbstractAction.t)
    (estimated_total_cost : arg float)
    (contingencies metadata : arg (gmap string pyval)) : t :=
  mk goal_intention actions (or_default 0%float estimated_total_cost)
     (or_default ∅ contingencies) (or_default ∅ metadata).
End AbstractPlan.

Module TaskSchema.
Record t : Type := mk {
  task_id : string;
  parameters : list string;
  decomposition : list string;
  is_foreseeable : bool;
  metadata : gmap string pyval
}.

Definition init (task_id : string) (parameters decomposition : list string)
    (is_foreseeable : arg bool) (metadata : arg (gmap string pyval)) : t :=
  mk task_id parameters decomposition (or_default false is_foreseeable)
     (or_default ∅ metadata).
End TaskSchema.

Module TaskInstance.
Record t : Type := mk {
  schema_id : string;
  instance_id : string;
  parameters : gmap string pyval;
  metadata : gmap string pyval
}.

Definition init (schema_id instance_id : string)
    (parameters : gmap string pyval)
    (metadata : arg (gmap string pyval)) : t :=
  mk schema_id instance_id parameters (or_default ∅ metadata).
End TaskInstance.

(** ** The operating system, as far as the script uses it *)

(** A path is the sequence of its components, and the file system is one
    tree addressed by the path as written: the empty path is the directory
    the process runs in (the root, for an absolute path).  Links, [..]
    components and permissions are outside the model; the only refusals are
    a regular file where a directory is needed and a directory where a file
    is to be opened. *)
Abbreviation Path := (list string).

Inductive node : Type :=
| Dir
| File (content : string).

Abbreviation FS := (gmap (list string) node).

Inductive exn : Type :=
| KeyError (key : string)
| TypeError (msg : string)
| NotImplementedError (msg : string)
| FileExistsError
| FileNotFoundError
| NotADirectoryError
| IsADirectoryError.

Record World : Type := mkWorld {
  files : FS;
  stdout : list string
}.

(** Computations that read and change the world and may raise. What was
    done before an exception stays done. *)
Definition M (A : Type) : Type := World -> (exn + A) * World.

#[global] Instance M_ret : MRet M := fun A (a : A) w => (inr a, w).
#[global] Instance M_bind : MBind M := fun A B (k : A -> M B) (m : M A) w =>
  match m w with
  | (inr a, w') => k a w'
  | (inl e, w') => (inl e, w')
  end.

Definition raise {A : Type} (e : exn) : M A := fun w => (inl e, w).

Definition print (line : string) : M unit := fun w =>
  (inr tt, mkWorld (files w) (stdout w ++ [line])%list).

(** [Path(s)]: the components between slashes, empty ones and [.] dropped. *)
Fixpoint segments (s : string) : list string :=
  match s with
  | EmptyString => [EmptyString]
  | String c s' =>
      if Ascii.eqb c "/" then EmptyString :: segments s'
      else match segments s' with
           | seg :: rest => String c seg :: rest
           | [] => [String c EmptyString]
           end
  end.

Definition Path_of_string (s : string) : Path :=
  filter (fun seg => seg ≠ "" ∧ seg ≠ ".") (segments s).

Definition Path_parent (p : Path) : Path := removelast p.

(** The root that [Path(s)] keeps: none for a relative path, one slash for
    an absolute one, and two slashes when [s] starts with exactly two. *)
Definition Path_root (s : string) : string :=
  match s with
  | String "/" (String "/" (String "/" _)) => "/"
  | String "/" (String "/" _) => "//"
  | String "/" _ => "/"
  | _ => ""
  end.

(** [str(path)]: the root and the components joined by slashes, and a dot
    for the path with neither. *)
Definition Path_str (root : string) (p : Path) : string :=
  match p with
  | [] => if String.eqb root "" then "." else root
  | c :: cs => root ++ fold_left (fun acc x => acc ++ "/" ++ x) cs c
  end.

(** The output paths on which the file system above and a Linux file
    system agree about the script: written in ASCII without the NUL byte,
    no component [..], no component longer than 255 bytes and the whole
    shorter than 4096 (the limits beyond which [mkdir] and [open] refuse a
    name). *)
Definition ordinary_path (s : string) : bool :=
  forallb (fun c => let n := nat_of_ascii c in (0 <? n)%nat && (n <? 128)%nat)
          (list_ascii_of_string s)
  && forallb (fun c => negb (String.eqb c "..") && (String.length c <=? 255)%nat)
             (Path_of_string s)
  && (String.length s <? 4096)%nat.

Definition node_at (fs : FS) (p : Path) : option node :=
  match p with
  | [] => Some Dir
  | _ => fs !! p
  end.

(** [mkdir(parents=True, exist_ok=True)], walking down from [base]: a
    component that is a directory is entered, a missing one is created, a
    regular file in the way is an error. *)
Fixpoint mkdir_from (base : Path) (rest : list string) (fs : FS)
    : (exn + unit) * FS :=
  match rest with
  | [] => (inr tt, fs)
  | name :: rest' =>
      let p := (base ++ [name])%list in
      match fs !! p with
      | Some Dir => mkdir_from p rest' fs
      | Some (File _) =>
          (inl (match rest' with [] => FileExistsError | _ => NotADirectoryError end), fs)
      | None => mkdir_from p rest' (<[p := Dir]> fs)
      end
  end.

Definition Path_mkdir (p : Path) : M unit := fun w =>
  let '(r, fs') := mkdir_from [] p (files w) in (r, mkWorld fs' (stdout w)).

(** [open(p, 'w')]: the directory holding [p] must exist and [p] must not
    be a directory; the file is created, or emptied when it exists. *)
Definition open_w (p : Path) : M Path := fun w =>
  match node_at (files w) (Path_parent p) with
  | Some Dir =>
      match node_at (files w) p with
      | Some Dir => (inl IsADirectoryError, w)
      | _ => (inr p, mkWorld (<[p := File ""]> (files w)) (stdout w))
      end
  | Some (File _) => (inl NotADirectoryError, w)
  | None => (inl FileNotFoundError, w)
  end.

(** Writing to an open file appends to what it holds. *)
Definition write (f : Path) (text : string) : M unit := fun w =>
  let old := match files w !! f with Some (File c) => c | _ => "" end in
  (inr tt, mkWorld (<[f := File (old ++ text)]> (files w)) (stdout w)).

(** What a file system must offer for a file to be written at [p] the way
    the script does it: no regular file where a directory on the way to [p]
    has to be, and no directory at [p] itself. *)
Definition is_file (fs : FS) (p : Path) : bool :=
  match fs !! p with
  | Some (File _) => true
  | _ => false
  end.

Definition is_dir (fs : FS) (p : Path) : bool :=
  match node_at fs p with
  | Some Dir => true
  | _ => false
  end.

Fixpoint dirs_from (base : Path) (rest : list string) : list Path :=
  match rest with
  | [] => []
  | name :: rest' => (base ++ [name])%list :: dirs_from (base ++ [name])%list rest'
  end.

Definition ancestors (p : Path) : list Path := dirs_from [] (Path_parent p).

Definition can_make_parents (fs : FS) (p : Path) : bool :=
  forallb (fun q => negb (is_file fs q)) (ancestors p).

Definition can_write (fs : FS) (p : Path) : bool :=
  can_make_parents fs p && negb (is_dir fs p).

(** Standard output as text: [print] ends each of its arguments with a
    newline, and the text read back splits at newlines into lines. *)
Definition newline : string := String "010" EmptyString.

Definition printed_text (printed : list string) : string :=
  fold_right (fun line rest => line ++ newline ++ rest) "" printed.

Fixpoint lines_of (s : string) : list string :=
  match s with
  | EmptyString => [EmptyString]
  | String c s' =>
      if Ascii.eqb c "010" then EmptyString :: lines_of s'
      else match lines_of s' with
           | line :: rest => String c line :: rest
           | [] => [String c EmptyString]
           end
  end.

Fixpoint one_line (s : string) : bool :=
  match s with
  | EmptyString => true
  | String c s' => negb (Ascii.eqb c "010") && one_line s'
  end.

(** [d[k]] and [len(v)] *)
Fixpoint assoc (k : string) (entries : list (string * pyval)) : option pyval :=
  match entries with
  | [] => None
  | (k', v) :: rest => if String.eqb k k' then Some v else assoc k rest
  end.

Definition getitem (d : pyval) (k : string) : M pyval :=
  match d with
  | PDict entries =>
      match assoc k entries with
      | Some v => mret v
      | None => raise (KeyError k)
      end
  | _ => raise (TypeError "object is not subscriptable")
  end.

Definition len (v : pyval) : M Z :=
  match v with
  | PList items => mret (Z.of_nat (length items))
  | PDict entries => mret (Z.of_nat (length entries))
  | PStr s => mret (Z.of_nat (String.length s))
  | _ => raise (TypeError "object has no len()")
  end.

(** The two library functions the script leaves to Python and PyYAML:
    [yaml.dump(v, default_flow_style=False, sort_keys=False)] as the text it
    produces, and [str(v)] as an f-string interpolates it. *)
Class PyLib : Type := {
  yaml_dump : pyval -> string;
  py_str : pyval -> string
}.

(** ** scripts/domain_assembler.py *)

Definition pair_of (x y : Z) : pyval := PList [PInt x; PInt y].

(** The function takes no argument and touches nothing outside: it returns
    the dictionary its body spells out, keys in the order written. *)
Definition generate_test_domain : M pyval :=
  mret (PDict [
    ("metadata", PDict [
       ("name", PStr "test_kitting_cell");
       ("description", PStr "Test environment for intention recognition");
       ("version", PStr "1.0");
       ("source", PStr "hardcoded_test_data")]);
    ("environment", PDict [
       ("width", PInt 1600);
       ("height", PInt 800);
       ("units", PStr "pixels")]);
    ("zones", PList [
       PDict [("id", PStr "zone_SE");
              ("bounds", PDict [("x_min", PInt 800); ("x_max", PInt 1600);
                                ("y_min", PInt 0); ("y_max", PInt 400)]);
              ("label", PStr "southeast_storage")];
       PDict [("id", PStr "zone_SW");
              ("bounds", PDict [("x_min", PInt 0); ("x_max", PInt 800);
                                ("y_min", PInt 0); ("y_max", PInt 400)]);
              ("label", PStr "southwest_storage")];
       PDict [("id", PStr "zone_NW");
              ("bounds", PDict [("x_min", PInt 0); ("x_max", PInt 800);
                                ("y_min", PInt 400); ("y_max", PInt 800)]);
              ("label", PStr "northwest_work")];
       PDict [("id", PStr "zone_NE");
              ("bounds", PDict [("x_min", PInt 800); ("x_max", PInt 1600);
                                ("y_min", PInt 400); ("y_max", PInt 800)]);
              ("label", PStr "northeast_work")]]);
    ("shelves", PList [
       PDict [("id", PStr "shelf_1"); ("position", pair_of 100 100);
              ("size", pair_of 100 100); ("slots", PInt 4);
              ("zone", PStr "zone_SW")];
       PDict [("id", PStr "shelf_2"); ("position", pair_of 300 100);
              ("size", pair_of 100 100); ("slots", PInt 4);
              ("zone", PStr "zone_SW")];
       PDict [("id", PStr "shelf_3"); ("position", pair_of 1400 100);
              ("size", pair_of 100 100); ("slots", PInt 4);
              ("zone", PStr "zone_SE")]]);
    ("tables", PList [
       PDict [("id", PStr "kitting_table"); ("position", pair_of 650 710);
              ("size", pair_of 300 90); ("zone", PStr "zone_NW")]]);
    ("doors", PList [
       PDict [("id", PStr "south_exit"); ("position", pair_of 725 0);
              ("size", pair_of 150 30); ("function", PStr "exit")];
       PDict [("id", PStr "north_entry_A"); ("position", pair_of 1450 770);
              ("size", pair_of 150 30); ("function", PStr "enter")]]);
    ("items", PList [
       PDict [("id", PStr "item_1"); ("type", PStr "part_A");
              ("initial_location", PStr "shelf_1"); ("size", pair_of 25 25)];
       PDict [("id", PStr "item_2"); ("type", PStr "part_A");
              ("initial_location", PStr "shelf_2"); ("size", pair_of 25 25)];
       PDict [("id", PStr "item_3"); ("type", PStr "part_B");
              ("initial_location", PStr "shelf_3"); ("size", pair_of 25 25)]])
  ]).

(** The domain that [generate_test_domain] returns, taken out of the
    computation. *)
Definition test_domain : pyval :=
  match fst (generate_test_domain (mkWorld ∅ [])) with
  | inr d => d
  | inl _ => PNone
  end.

Definition not_implemented_message : string :=
  "Gazebo JSON parsing not yet implemented".

Section Script.
Context `{PyLib}.

Definition convert_gazebo_to_domain (gazebo_json_path : option string)
    (output_path : string) : M unit :=
  let root := Path_root output_path in
  let output_path := Path_of_string output_path in
  Path_mkdir (Path_parent output_path) ;;
  domain ← match gazebo_json_path with
           | None =>
               print "No Gazebo JSON provided - generating test data" ;;
               generate_test_domain
           | Some path =>
               print ("Parsing Gazebo JSON from " ++ path) ;;
               raise (NotImplementedError not_implemented_message)
           end;
  f ← open_w output_path;
  write f (yaml_dump domain) ;;
  print ("Generated domain config at " ++ Path_str root output_path) ;;
  print (newline ++ "Domain Summary:") ;;
  shelves ← getitem domain "shelves";
  n_shelves ← len shelves;
  print ("  - Shelves: " ++ py_str (PInt n_shelves)) ;;
  items ← getitem domain "items";
  n_items ← len items;
  print ("  - Items: " ++ py_str (PInt n_items)) ;;
  zones ← getitem domain "zones";
  n_zones ← len zones;
  print ("  - Zones: " ++ py_str (PInt n_zones)) ;;
  environment ← getitem domain "environment";
  width ← getitem environment "width";
  environment' ← getitem domain "environment";
  height ← getitem environment' "height";
  print ("  - Grid: " ++ py_str width ++ "x" ++ py_str height).

(** What [argparse] hands over: [--input] (absent unless given) and
    [--output] (with its default).  A command line that [argparse] rejects
    never reaches the script's body and is not modelled. *)
Record Namespace : Type := mkNamespace {
  input : option string;
  output : string
}.

Definition parse_args (input : option string) (output : arg string) : Namespace :=
  mkNamespace input (or_default "configs/domain.yaml" output).

Definition closing_line (output : string) : string :=
  "Domain assembly complete. file " ++ output ++ " generated.".

(** The body under [if __name__ == "__main__"]. *)
Definition script (args : Namespace) : M unit :=
  convert_gazebo_to_domain (input args) (output args) ;;
  print (closing_line (output args)).

(** A run of the script as a process: it starts with nothing printed, and
    ends with status 0, or with status 1 when an exception reaches the top. *)
Record Outcome : Type := mkOutcome {
  exit_code : Z;
  uncaught : option exn;
  world : World
}.

Definition run (args : Namespace) (fs : FS) : Outcome :=
  match script args (mkWorld fs []) with
  | (inr _, w) => mkOutcome 0 None w
  | (inl e, w) => mkOutcome 1 (Some e) w
  end.

(** The lines that [convert_gazebo_to_domain] prints when it writes the
    test data to [output_path]. *)
Definition test_data_report (output_path : string) : list string :=
  [ "No Gazebo JSON provided - generating test data";
    "Generated domain config at "
      ++ Path_str (Path_root output_path) (Path_of_string output_path);
    newline ++ "Domain Summary:";
    "  - Shelves: " ++ py_str (PInt 3);
    "  - Items: " ++ py_str (PInt 3);
    "  - Zones: " ++ py_str (PInt 4);
    "  - Grid: " ++ py_str (PInt 1600) ++ "x" ++ py_str (PInt 800) ].
End Script.

(** ** A concrete library instance

    Integers and strings are rendered as Python prints them; a float is
    written exactly, as mantissa and binary exponent; lists and dictionaries
    are written in flow style.  The instance serves to run the script on
    concrete worlds; no property below depends on it. *)

Definition render_float (f : float) : string :=
  match FloatOps.Prim2SF f with
  | SpecFloat.S754_zero s => if s then "-0.0" else "0.0"
  | SpecFloat.S754_infinity s => if s then "-.inf" else ".inf"
  | SpecFloat.S754_nan => ".nan"
  | SpecFloat.S754_finite s m e =>
      (if s then "-" else "") ++ pretty (Z.pos m) ++ "*2**" ++ pretty e
  end.

Fixpoint render (v : pyval) : string :=
  match v with
  | PNone => "null"
  | PBool b => if b then "true" else "false"
  | PInt z => pretty z
  | PFloat f => render_float f
  | PStr s => s
  | PList items =>
      "[" ++ (fix go (l : list pyval) : string :=
                match l with
                | [] => ""
                | x :: l' =>
                    render x ++ match l' with [] => "" | _ => ", " ++ go l' end
                end) items ++ "]"
  | PDict entries =>
      "{" ++ (fix go (l : list (string * pyval)) : string :=
                match l with
                | [] => ""
                | (k, x) :: l' =>
                    k ++ ": " ++ render x
                      ++ match l' with [] => "" | _ => ", " ++ go l' end
                end) entries ++ "}"
  end.

Definition flow_lib : PyLib := {| yaml_dump := render; py_str := render |}.

(** ** The invariants stated for contract instances

    None of the following is computed or checked anywhere in the source; the
    definitions put the specification's wording into terms of the records
    above, so that it can be compared with what construction does. *)

Definition in_unit (x : float) : bool :=
  PrimFloat.leb 0 x && PrimFloat.leb x 1.

(** Reading the domain dictionary: [d.get(k)], the list stored under a
    top-level key, and the [id]s of its entries. *)
Definition field (k : string) (v : pyval) : option pyval :=
  match v with
  | PDict entries => assoc k entries
  | _ => None
  end.

Definition records (k : string) (domain : pyval) : list pyval :=
  match field k domain with
  | Some (PList l) => l
  | _ => []
  end.

Definition ids_of (k : string) (domain : pyval) : list pyval :=
  omap (field "id") (records k domain).

(** In the specification's words: what [validate_observation] is to check.
    The source has no such function. *)
Definition valid_observation (domain : pyval) (o : Observation.t) : Prop :=
  in_unit (Observation.confidence o) = true ∧
  in_unit (ActionContext.progress (Observation.action_context o)) = true ∧
  ∀ z, SpatialContext.zone (Observation.spatial_context o) = Some z →
       PStr z ∈ ids_of "zones" domain.

(** The sum of a distribution and the recommended tolerance on it, and the
    selection of the key of maximum probability, ties going to the
    lexicographically smaller identifier: one pass over the entries that
    keeps the best seen so far. *)
Definition total_probability (d : gmap string float) : float :=
  map_fold (fun _ p acc => PrimFloat.add acc p) 0%float d.

Definition sums_to_one (d : gmap string float) : bool :=
  PrimFloat.leb (PrimFloat.abs (PrimFloat.sub (total_probability d) 1)) 1e-6.

Definition better (k : string) (p : float) (best : string * float) : bool :=
  PrimFloat.ltb (snd best) p
  || (PrimFloat.eqb p (snd best) && String.ltb k (fst best)).

Definition argmax_lex (d : gmap string float) : option string :=
  fst <$> map_fold (fun k p best =>
                      match best with
                      | None => Some (k, p)
                      | Some b => if better k p b then Some (k, p) else best
                      end) None d.

(** Modelled from the spec: [validate_belief_state], which the source does
    not contain.  It checks what the specification lists for it: the
    probability bounds (every probability and the confidence in [0,1]), the
    sum of the distribution within 1e-6 of one, that [most_likely] is the key
    the selection above gives, and that predictions are made only for keys of
    the distribution.  [true] is a belief state that passes; [false] stands
    for the schema violation. *)
Definition validate_belief_state (b : BeliefState.t) : bool :=
  bool_decide (map_Forall (fun _ p => in_unit p = true) (BeliefState.distribution b))
  && in_unit (BeliefState.confidence b)
  && sums_to_one (BeliefState.distribution b)
  && bool_decide (argmax_lex (BeliefState.distribution b)
                  = Some (BeliefState.most_likely b))
  && bool_decide (dom (BeliefState.predicted_next_actions b)
                  ⊆ dom (BeliefState.distribution b)).

(** In the specification's words: the table of required parameter keys per
    action type. The source does not contain it. *)
Definition required_keys (a : ActionType) : list string :=
  match a with
  | NAVIGATE => ["target"]
  | PICK => ["target"; "item"]
  | PLACE => ["target"; "item"]
  | WAIT => []
  | HANDOVER => ["target"; "item"]
  end.

Definition has_required_keys (a : AbstractAction.t) : Prop :=
  ∀ k, k ∈ required_keys (AbstractAction.action_type a) →
       is_Some (AbstractAction.parameters a !! k).

(** The referential integrity asked of a domain: shelves and tables name
    existing zones, items name existing shelves or tables. *)
Definition referential_integrity (domain : pyval) : Prop :=
  (∀ r, r ∈ (records "shelves" domain ++ records "tables" domain)%list →
        ∃ z, field "zone" r = Some z ∧ z ∈ ids_of "zones" domain) ∧
  (∀ r, r ∈ records "items" domain →
        ∃ l, field "initial_location" r = Some l ∧
             l ∈ (ids_of "shelves" domain ++ ids_of "tables" domain)%list).


(** Reading the geometry of a domain: integer fields, positions, and the
    zones whose bounds hold a point.  Bounds are read as half-open, from the
    minimum up to but not including the maximum, so that zones that share an
    edge do not share points. *)
Definition int_field (k : string) (v : pyval) : option Z :=
  match field k v with
  | Some (PInt z) => Some z
  | _ => None
  end.

Definition point_of (v : pyval) : option (Z * Z) :=
  match v with
  | PList [PInt x; PInt y] => Some (x, y)
  | _ => None
  end.

Definition in_bounds (x y : Z) (zone : pyval) : bool :=
  match field "bounds" zone with
  | Some b =>
      match int_field "x_min" b, int_field "x_max" b,
            int_field "y_min" b, int_field "y_max" b with
      | Some x0, Some x1, Some y0, Some y1 =>
          (x0 <=? x) && (x <? x1) && (y0 <=? y) && (y <? y1)
      | _, _, _, _ => false
      end
  | None => false
  end.

Definition zones_at (domain : pyval) (x y : Z) : list pyval :=
  List.filter (in_bounds x y) (records "zones" domain).

Definition all_ids (domain : pyval) : list pyval :=
  (ids_of "zones" domain ++ ids_of "shelves" domain ++ ids_of "tables" domain
     ++ ids_of "doors" domain ++ ids_of "items" domain)%list.

Definition all_records (domain : pyval) : list pyval :=
  (records "zones" domain ++ records "shelves" domain ++ records "tables" domain
     ++ records "doors" domain ++ records "items" domain)%list.

Definition greeting : string := "No Gazebo JSON provided - generating test data".

Definition at_origin (zone : option string) : SpatialContext.t :=
  SpatialContext.init (0%float, 0%float) 0%float (Some zone).

Definition observe (sc : SpatialContext.t) (progress confidence : arg float)
    : Observation.t :=
  Observation.init 0%float "human_1" "move_to_shelf_3" sc
    (ActionContext.init None progress None) confidence.

Definition overconfident : Observation.t :=
  observe (at_origin None) None (Some 2%float).
Definition negative_progress : Observation.t :=
  observe (at_origin None) (Some (-0.5)%float) None.
Definition nowhere : Observation.t :=
  observe (at_origin (Some "zone_XX")) None None.

Definition skewed_belief : BeliefState.t :=
  BeliefState.init 0%float "human_1" {[ "A" := 0.7%float; "B" := 0.3%float ]}
    "B" 0.9%float None.

Definition even_belief : BeliefState.t :=
  BeliefState.init 0%float "human_1" {[ "A" := 0.5%float; "B" := 0.5%float ]}
    "A" 0.9%float None.

Definition navigate_nowhere : AbstractAction.t :=
  AbstractAction.init NAVIGATE ∅ None None None None.

(** * Properties of the contract types *)

Section ContractTypes.
Import Observation ActionContext SpatialContext.

Lemma in_list_inv {A : Type} (x y : A) (l : list A) :
  x ∈ y :: l → x = y ∨ x ∈ l.
Proof. intros Hin. by apply elem_of_cons in Hin. Qed.

(** The claim of C1 fails: each of the three breaches is an instance that
    construction returns. *)
Lemma invalid_observations_are_constructed :
  ¬ valid_observation test_domain overconfident
  ∧ ¬ valid_observation test_domain negative_progress
  ∧ ¬ valid_observation test_domain nowhere.
Proof.
  repeat split.
  - intros [Hc _]. vm_compute in Hc. discriminate.
  - intros (_ & Hp & _). vm_compute in Hp. discriminate.
  - intros (_ & _ & Hz). specialize (Hz "zone_XX" eq_refl).
    vm_compute in Hz.
    repeat (apply in_list_inv in Hz as [Hz | Hz]; [discriminate |]).
    by apply elem_of_nil in Hz.
Qed.

(** C1, as amended: constructing an observation checks nothing. For all
    arguments the instance exists and holds the confidence, the progress and
    the zone it was given (or the default of an argument left out), so it
    meets the range and zone conditions exactly when those values do. *)
Theorem observation_construction_is_unchecked :
  ∀ (domain : pyval) (ts : float) (aid ma : string) (pos : float * float)
    (ori : float) (z tobj : arg (option string)) (p c : arg float)
    (md : arg (gmap string pyval)),
    let o := Observation.init ts aid ma
               (SpatialContext.init pos ori z)
               (ActionContext.init tobj p md) c in
    confidence o = or_default 1%float c
    ∧ progress (action_context o) = or_default 0%float p
    ∧ zone (spatial_context o) = or_default None z
    ∧ (valid_observation domain o ↔
         in_unit (or_default 1%float c) = true
         ∧ in_unit (or_default 0%float p) = true
         ∧ ∀ id, or_default None z = Some id → PStr id ∈ ids_of "zones" domain).
Proof. intros. do 3 (split; [reflexivity |]). reflexivity. Qed.

(** C8: an observation built without a confidence has confidence 1.0 and
    an action context built without a progress has progress 0.0; a value
    that is passed is kept whatever it is, so the defaults stand in for
    absent arguments only, never for rejected ones. *)
Theorem schema_defaults :
  (∀ ts aid ma sc ac,
      confidence (Observation.init ts aid ma sc ac None) = 1%float)
  ∧ (∀ tobj md, progress (ActionContext.init tobj None md) = 0%float)
  ∧ (∀ ts aid ma sc ac c,
      confidence (Observation.init ts aid ma sc ac (Some c)) = c)
  ∧ (∀ tobj md p, progress (ActionContext.init tobj (Some p) md) = p).
Proof. repeat split. Qed.
End ContractTypes.

Section FloatOrder.

(** A float in [0,1] is a zero or a positive finite number: on these the
    comparisons are those of exponent and mantissa. *)
Inductive unit_shape : spec_float → Prop :=
| shape_zero s : unit_shape (S754_zero s)
| shape_pos m e : unit_shape (S754_finite false m e).

Lemma in_unit_shape x : in_unit x = true → unit_shape (Prim2SF x).
Proof.
  unfold in_unit. intros [H0 H1]%andb_true_iff.
  rewrite FloatAxioms.leb_spec in H0, H1.
  change (Prim2SF 0) with (S754_zero false) in H0.
  destruct (Prim2SF x) as [s | [|] | | [|] m e]; try discriminate; constructor.
Qed.

Ltac float_cases :=
  repeat match goal with
         | H : in_unit _ = true |- _ => apply in_unit_shape in H
         end;
  rewrite ?FloatAxioms.ltb_spec, ?FloatAxioms.eqb_spec, ?FloatAxioms.leb_spec in *;
  repeat match goal with
         | H : unit_shape _ |- _ => inversion H; clear H
         end;
  subst;
  repeat match goal with
         | H : _ = Prim2SF _ |- _ => rewrite <- H in *; clear H
         end;
  unfold SFltb, SFeqb, SFleb, SFcompare in *;
  repeat match goal with
         | |- context [Z.compare ?a ?b] => destruct (Z.compare_spec a b)
         | H : context [Z.compare ?a ?b] |- _ => destruct (Z.compare_spec a b)
         | |- context [Pos.compare_cont Eq ?a ?b] =>
             change (Pos.compare_cont Eq a b) with (Pos.compare a b);
             destruct (Pos.compare_spec a b)
         | H : context [Pos.compare_cont Eq ?a ?b] |- _ =>
             change (Pos.compare_cont Eq a b) with (Pos.compare a b) in H;
             destruct (Pos.compare_spec a b)
         end;
  try discriminate; try reflexivity; try lia.

Lemma unit_below_strict a b c :
  in_unit a = true → in_unit b = true → in_unit c = true →
  PrimFloat.ltb b a = true → PrimFloat.ltb b c = false →
  PrimFloat.ltb a c = false ∧ PrimFloat.eqb c a = false.
Proof. intros Ha Hb Hc H1 H2. split; float_cases. Qed.

Lemma unit_below_equal a b c :
  in_unit a = true → in_unit b = true → in_unit c = true →
  PrimFloat.eqb a b = true → PrimFloat.ltb b c = false →
  PrimFloat.ltb a c = false.
Proof. intros Ha Hb Hc H1 H2. float_cases. Qed.

Lemma unit_equal_trans a b c :
  in_unit a = true → in_unit b = true → in_unit c = true →
  PrimFloat.eqb c a = true → PrimFloat.eqb a b = true →
  PrimFloat.eqb c b = true.
Proof. intros Ha Hb Hc H1 H2. float_cases. Qed.

Lemma unit_not_above a b :
  in_unit a = true → in_unit b = true →
  PrimFloat.ltb a b = false → PrimFloat.leb b a = true.
Proof. intros Ha Hb H1. float_cases. Qed.

Lemma unit_not_below_self a : in_unit a = true → PrimFloat.ltb a a = false.
Proof. intros Ha. float_cases. Qed.
End FloatOrder.

Section StringOrder.

Lemma ascii_compare_trans a b c :
  Ascii.compare a b = Lt → Ascii.compare b c = Lt → Ascii.compare a c = Lt.
Proof. unfold Ascii.compare. rewrite !N.compare_lt_iff. lia. Qed.

Lemma string_compare_trans : ∀ a b c,
  String.compare a b = Lt → String.compare b c = Lt → String.compare a c = Lt.
Proof.
  induction a as [| x a IH]; intros [| y b] [| z c]; cbn; try done.
  destruct (Ascii.compare x y) eqn:Hxy; [| | done];
    destruct (Ascii.compare y z) eqn:Hyz; try done.
  - apply Ascii.compare_eq_iff in Hxy, Hyz. subst.
    rewrite (proj2 (N.compare_eq_iff _ _) eq_refl : Ascii.compare z z = Eq).
    apply IH.
  - apply Ascii.compare_eq_iff in Hxy. subst. by rewrite Hyz.
  - apply Ascii.compare_eq_iff in Hyz. subst. by rewrite Hxy.
  - by rewrite (ascii_compare_trans _ _ _ Hxy Hyz).
Qed.

Lemma string_ltb_trans a b c :
  String.ltb a b = true → String.ltb b c = true → String.ltb a c = true.
Proof.
  unfold String.ltb. intros Hab Hbc.
  destruct (String.compare a b) eqn:H1; try done.
  destruct (String.compare b c) eqn:H2; try done.
  by rewrite (string_compare_trans _ _ _ H1 H2).
Qed.

Lemma string_ltb_irrefl a : String.ltb a a = false.
Proof.
  unfold String.ltb. pose proof (String.compare_antisym a a) as Hanti.
  by destruct (String.compare a a).
Qed.

Lemma string_not_ltb a b :
  String.ltb a b = false → a = b ∨ String.ltb b a = true.
Proof.
  unfold String.ltb. rewrite (String.compare_antisym b a).
  destruct (String.compare a b) eqn:Hcmp; cbn; [| done | by right].
  left. by apply String.compare_eq_iff.
Qed.
End StringOrder.

Section Beliefs.
Import BeliefState.
Implicit Types (d : gmap string float) (k : string) (p : float).

Example argmax_of_spec_scenario :
  argmax_lex {[ "A" := 0.7%float; "B" := 0.3%float ]} = Some "A".
Proof. vm_compute. reflexivity. Qed.

Example argmax_of_spec_tie :
  argmax_lex {[ "B" := 0.5%float; "A" := 0.5%float ]} = Some "A".
Proof. vm_compute. reflexivity. Qed.

(** The dataclass itself checks nothing: the belief state that names the
    less likely key is constructed, and it is the validation that turns it
    down. *)
Example skewed_belief_is_turned_down :
  most_likely skewed_belief = "B" ∧ validate_belief_state skewed_belief = false.
Proof. split; [reflexivity | vm_compute; reflexivity]. Qed.

(** An entry beats the best so far when its probability is higher, or
    equal with a smaller key. On probabilities in [0,1] this is a strict
    order, which is what the pass over the entries relies on. *)
Lemma better_irrefl k p : in_unit p = true → better k p (k, p) = false.
Proof.
  intros Hp. unfold better. cbn [fst snd].
  by rewrite (unit_not_below_self p Hp), string_ltb_irrefl, andb_false_r.
Qed.

Lemma better_trans ka pa kb pb kc pc :
  in_unit pa = true → in_unit pb = true → in_unit pc = true →
  better ka pa (kb, pb) = true → better kc pc (kb, pb) = false →
  better kc pc (ka, pa) = false.
Proof.
  intros Ha Hb Hc. unfold better. cbn [fst snd].
  intros [Hlt | [Heq Hk]%andb_true_iff]%orb_true_iff
         [Hnlt Hntie]%orb_false_iff.
  - destruct (unit_below_strict pa pb pc Ha Hb Hc Hlt Hnlt) as [-> ->]. done.
  - rewrite (unit_below_equal pa pb pc Ha Hb Hc Heq Hnlt). cbn [orb].
    destruct (PrimFloat.eqb pc pa) eqn:Hca; [| done]. cbn [andb].
    rewrite (unit_equal_trans pa pb pc Ha Hb Hc Hca Heq) in Hntie.
    cbn [andb] in Hntie.
    destruct (String.ltb kc ka) eqn:Hck; [| done].
    by rewrite (string_ltb_trans kc ka kb Hck Hk) in Hntie.
Qed.

Definition argmax_step (k : string) (p : float) (best : option (string * float))
    : option (string * float) :=
  match best with
  | None => Some (k, p)
  | Some b => if better k p b then Some (k, p) else best
  end.

Definition unbeaten d (best : option (string * float)) : Prop :=
  match best with
  | None => d = ∅
  | Some (kb, pb) =>
      d !! kb = Some pb ∧ ∀ k p, d !! k = Some p → better k p (kb, pb) = false
  end.

(** The invariant of the pass: the best so far is an entry that no entry
    seen beats. *)
Lemma argmax_fold_unbeaten d :
  map_Forall (fun _ p => in_unit p = true) d →
  unbeaten d (map_fold argmax_step None d).
Proof.
  apply (map_fold_weak_ind
           (fun r m => map_Forall (fun _ p => in_unit p = true) m → unbeaten m r)).
  - done.
  - intros i x m r Hi IH Hall.
    apply map_Forall_insert in Hall as [Hx Hm]; [| done]. specialize (IH Hm).
    destruct r as [[kb pb] |]; cbn [argmax_step unbeaten] in *.
    + destruct IH as [Hkb Hbest]. pose proof (Hm _ _ Hkb) as Hpb. cbn beta in Hpb.
      destruct (better i x (kb, pb)) eqn:Hbeats.
      * split; [apply lookup_insert_eq |]. intros k p Hk.
        destruct (decide (i = k)) as [<- | Hne].
        -- rewrite lookup_insert_eq in Hk. injection Hk as <-.
           by apply better_irrefl.
        -- rewrite lookup_insert_ne in Hk by done.
           apply (better_trans i x kb pb k p);
             [done | done | by apply (Hm k) | done |].
           by apply Hbest.
      * assert (i ≠ kb) by congruence.
        split; [by rewrite lookup_insert_ne |]. intros k p Hk.
        destruct (decide (i = k)) as [<- | Hne].
        -- rewrite lookup_insert_eq in Hk. by injection Hk as <-.
        -- rewrite lookup_insert_ne in Hk by done. by apply Hbest.
    + subst m. split; [apply lookup_insert_eq |]. intros k p Hk.
      apply lookup_insert_Some in Hk as [[<- <-] | [_ Hk]];
        [by apply better_irrefl |].
      by rewrite lookup_empty in Hk.
Qed.

(** C2: a belief state that passes validation has a distribution that is
    not empty, and its [most_likely] is a key of the distribution whose
    probability no other probability exceeds; among the keys that share that
    probability it is the lexicographically smallest.  It is also the key
    that the selection computes, which for the distributions A 0.7, B 0.3
    and A 0.5, B 0.5 is A. *)
Theorem valid_belief_names_the_most_likely (b : BeliefState.t) :
  validate_belief_state b = true →
  distribution b ≠ ∅
  ∧ argmax_lex (distribution b) = Some (most_likely b)
  ∧ ∃ p, distribution b !! most_likely b = Some p
       ∧ ∀ k q, distribution b !! k = Some q →
           PrimFloat.leb q p = true
           ∧ (PrimFloat.eqb q p = true →
              k = most_likely b ∨ String.ltb (most_likely b) k = true).
Proof.
  unfold validate_belief_state. rewrite !andb_true_iff.
  intros [[[[Hall%bool_decide_eq_true _] _] Hmax%bool_decide_eq_true] _].
  pose proof (argmax_fold_unbeaten _ Hall) as Hinv.
  pose proof Hmax as Hfold. unfold argmax_lex in Hfold.
  change (fun k p best => _) with argmax_step in Hfold.
  destruct (map_fold argmax_step None (distribution b)) as [[kb pb] |]; [| done].
  cbn in Hfold. injection Hfold as Hkb. rewrite <- Hkb.
  destruct Hinv as [Hm Hbest].
  split; [| split; [by rewrite Hkb |]].
  - intros Hempty. rewrite Hempty in Hm. by rewrite lookup_empty in Hm.
  - exists pb. split; [done |]. intros k q Hk.
    specialize (Hbest k q Hk). unfold better in Hbest. cbn [fst snd] in Hbest.
    apply orb_false_iff in Hbest as [Hnlt Hntie].
    split; [apply unit_not_above; [by apply (Hall kb) | by apply (Hall k) | done] |].
    intros Heq. rewrite Heq in Hntie. cbn [andb] in Hntie.
    by apply string_not_ltb.
Qed.
End Beliefs.

Section Actions.
Import AbstractAction.

(** The claim of C3 fails: a NAVIGATE action without a target is
    constructed. *)
Lemma navigate_without_target_is_constructed :
  action_type navigate_nowhere = NAVIGATE
  ∧ parameters navigate_nowhere !! "target" = None
  ∧ ¬ has_required_keys navigate_nowhere.
Proof.
  repeat split.
  intros Hreq. destruct (Hreq "target") as [v Hv].
  - cbn. apply list_elem_of_here.
  - vm_compute in Hv. discriminate.
Qed.

(** C3, as amended: construction stores the action type and the parameter
    mapping it is given without consulting the table, so an action has its
    required keys exactly when the mapping passed in has them; extra keys
    are kept, and a WAIT action, which requires none, always has them. *)
Theorem parameters_are_stored_unchecked :
  ∀ (ty : ActionType) (ps : gmap string pyval)
    (path : arg (option (list (float * float)))) (dur : arg float)
    (sc tc : arg (gmap string pyval)),
    let a := AbstractAction.init ty ps path dur sc tc in
    action_type a = ty
    ∧ parameters a = ps
    ∧ (has_required_keys a ↔
         ∀ k, k ∈ required_keys ty → is_Some (ps !! k))
    ∧ has_required_keys (AbstractAction.init WAIT ps path dur sc tc).
Proof.
  intros. do 3 (split; [reflexivity |]).
  intros k Hk. cbn in Hk. by apply elem_of_nil in Hk.
Qed.
End Actions.

(** * Properties of the file-system operations *)

Section Mkdir.
Local Open Scope list_scope.
Implicit Types (fs : FS) (base rest q : Path).

Lemma app_ne_self base q : q ≠ [] → base ++ q ≠ base.
Proof.
  intros Hne Heq. apply (f_equal length) in Heq.
  rewrite length_app in Heq. destruct q; [done | cbn in Heq; lia].
Qed.

(** A node that exists is left as it is. *)
Lemma mkdir_from_preserves rest : ∀ base fs q n,
  fs !! q = Some n → (mkdir_from base rest fs).2 !! q = Some n.
Proof.
  induction rest as [| name rest IH]; intros base fs q n Hq; [done |].
  cbn [mkdir_from].
  destruct (fs !! (base ++ [name])) as [[| c] |] eqn:Hp; [by apply IH | done |].
  apply IH. rewrite lookup_insert_ne; [done |]. congruence.
Qed.

(** All that changes is that missing nodes become directories. *)
Lemma mkdir_from_adds_dirs rest : ∀ base fs q,
  (mkdir_from base rest fs).2 !! q = fs !! q
  ∨ (fs !! q = None ∧ (mkdir_from base rest fs).2 !! q = Some Dir).
Proof.
  induction rest as [| name rest IH]; intros base fs q; [by left |].
  cbn [mkdir_from].
  destruct (fs !! (base ++ [name])) as [[| c] |] eqn:Hp; [apply IH | by left |].
  destruct (IH (base ++ [name]) (<[base ++ [name] := Dir]> fs) q) as [Heq | [Hnone Hdir]].
  - destruct (decide (base ++ [name] = q)) as [<- | Hne].
    + right. split; [done |]. by rewrite Heq, lookup_insert_eq.
    + left. by rewrite Heq, lookup_insert_ne.
  - right. split; [| done].
    destruct (decide (base ++ [name] = q)) as [<- | Hne]; [done |].
    by rewrite lookup_insert_ne in Hnone.
Qed.

Lemma mkdir_from_keeps_files rest base fs q c :
  (mkdir_from base rest fs).2 !! q = Some (File c) ↔ fs !! q = Some (File c).
Proof.
  split.
  - destruct (mkdir_from_adds_dirs rest base fs q) as [-> | [_ ->]]; [done | discriminate].
  - apply mkdir_from_preserves.
Qed.

(** After a successful call every directory on the way exists. *)
Lemma mkdir_from_makes_dirs rest : ∀ base fs q,
  (mkdir_from base rest fs).1 = inr tt →
  q `prefix_of` rest → q ≠ [] →
  (mkdir_from base rest fs).2 !! (base ++ q) = Some Dir.
Proof.
  induction rest as [| name rest IH]; intros base fs q Hok Hpre Hne.
  - apply prefix_nil_inv in Hpre. done.
  - destruct q as [| x q]; [done |].
    apply prefix_cons_inv_1 in Hpre as Hx. subst x.
    apply prefix_cons_inv_2 in Hpre.
    replace (base ++ name :: q) with ((base ++ [name]) ++ q)
      by (by rewrite <- app_assoc).
    cbn [mkdir_from] in *.
    destruct (fs !! (base ++ [name])) as [[| c] |] eqn:Hp; [| done |].
    + destruct q as [| y q].
      * rewrite app_nil_r. by apply mkdir_from_preserves.
      * by apply IH.
    + destruct q as [| y q].
      * rewrite app_nil_r. apply mkdir_from_preserves. by rewrite lookup_insert_eq.
      * by apply IH.
Qed.

(** The call succeeds unless a regular file is in the way. *)
Lemma mkdir_from_succeeds rest : ∀ base fs,
  (∀ q c, q `prefix_of` rest → q ≠ [] → fs !! (base ++ q) ≠ Some (File c)) →
  (mkdir_from base rest fs).1 = inr tt.
Proof.
  induction rest as [| name rest IH]; intros base fs Hfree; [done |].
  cbn [mkdir_from].
  assert (Hstep : ∀ q, q `prefix_of` rest → q ≠ [] →
                       (base ++ [name]) ++ q = base ++ name :: q
                       ∧ name :: q `prefix_of` name :: rest ∧ name :: q ≠ []).
  { intros q Hpre _. rewrite <- app_assoc. by repeat split; [apply prefix_cons |]. }
  destruct (fs !! (base ++ [name])) as [[| c] |] eqn:Hp.
  - apply IH. intros q c Hpre Hne.
    destruct (Hstep q Hpre Hne) as (-> & Hpre' & Hne'). by apply Hfree.
  - exfalso. apply (Hfree [name] c); [by apply prefix_cons, prefix_nil | done | done].
  - apply IH. intros q c Hpre Hne.
    rewrite lookup_insert_ne by (intros Heq; symmetry in Heq; by apply app_ne_self in Heq).
    destruct (Hstep q Hpre Hne) as (-> & Hpre' & Hne'). by apply Hfree.
Qed.

(** Where every directory on the way exists, the call changes nothing. *)
Lemma mkdir_from_noop rest : ∀ base fs,
  (∀ q, q `prefix_of` rest → q ≠ [] → fs !! (base ++ q) = Some Dir) →
  mkdir_from base rest fs = (inr tt, fs).
Proof.
  induction rest as [| name rest IH]; intros base fs Hdirs; [done |].
  cbn [mkdir_from].
  rewrite (Hdirs [name]); [| by apply prefix_cons, prefix_nil | done].
  apply IH. intros q Hpre Hne.
  rewrite <- app_assoc. apply Hdirs; [by apply prefix_cons | done].
Qed.

(** Calling again, on the file system that a call left, repeats its
    result and changes nothing more. *)
Lemma mkdir_from_again rest : ∀ base fs,
  mkdir_from base rest (mkdir_from base rest fs).2 = mkdir_from base rest fs.
Proof.
  induction rest as [| name rest IH]; intros base fs; [done |].
  cbn [mkdir_from].
  destruct (fs !! (base ++ [name])) as [[| c] |] eqn:Hp.
  - rewrite (mkdir_from_preserves rest _ fs _ Dir Hp). apply IH.
  - cbn [snd]. by rewrite Hp.
  - rewrite (mkdir_from_preserves rest _ (<[base ++ [name] := Dir]> fs) _ Dir)
      by apply lookup_insert_eq.
    apply IH.
Qed.

(** The errors of the call are those of a regular file in the way. *)
Lemma mkdir_from_error rest : ∀ base fs e,
  (mkdir_from base rest fs).1 = inl e →
  e = FileExistsError ∨ e = NotADirectoryError.
Proof.
  induction rest as [| name rest IH]; intros base fs e Herr; [done |].
  cbn [mkdir_from] in Herr.
  destruct (fs !! (base ++ [name])) as [[| c] |]; [by eapply IH | | by eapply IH].
  cbn [fst] in Herr. injection Herr as <-. destruct rest; [by left | by right].
Qed.

(** Nothing changes away from the directories on the way. *)
Lemma mkdir_from_elsewhere rest : ∀ base fs k,
  (∀ q, q `prefix_of` rest → q ≠ [] → base ++ q ≠ k) →
  (mkdir_from base rest fs).2 !! k = fs !! k.
Proof.
  induction rest as [| name rest IH]; intros base fs k Hk; [done |].
  cbn [mkdir_from].
  assert (Hdeeper : ∀ q, q `prefix_of` rest → q ≠ [] → (base ++ [name]) ++ q ≠ k).
  { intros q Hpre _. rewrite <- app_assoc. apply Hk; [by apply prefix_cons | done]. }
  destruct (fs !! (base ++ [name])) as [[| c] |] eqn:Hp; [by apply IH | done |].
  rewrite IH by done. apply lookup_insert_ne.
  apply Hk; [by apply prefix_cons, prefix_nil | done].
Qed.

Lemma elem_of_dirs_from rest : ∀ base k,
  k ∈ dirs_from base rest ↔ ∃ q, q `prefix_of` rest ∧ q ≠ [] ∧ k = base ++ q.
Proof.
  induction rest as [| name rest IH]; intros base k; cbn [dirs_from].
  - split; [by intros ?%elem_of_nil |].
    intros (q & Hpre%prefix_nil_inv & Hne & _). done.
  - rewrite elem_of_cons, IH. split.
    + intros [-> | (q & Hpre & Hne & ->)].
      * exists [name]. by repeat split; [apply prefix_cons, prefix_nil |].
      * exists (name :: q). rewrite <- app_assoc. by repeat split; [apply prefix_cons |].
    + intros ([| x q] & Hpre & Hne & ->); [done |].
      apply prefix_cons_inv_1 in Hpre as Hx. subst x.
      apply prefix_cons_inv_2 in Hpre.
      destruct q as [| y q]; [by left | right].
      exists (y :: q). by rewrite <- app_assoc.
Qed.
End Mkdir.

Section Parents.
Local Open Scope list_scope.
Implicit Types (fs : FS) (p q : Path).

Lemma parent_shorter p q : q `prefix_of` Path_parent p → p ≠ [] → q ≠ p.
Proof.
  intros Hpre Hne ->. apply prefix_length in Hpre.
  unfold Path_parent in Hpre.
  rewrite (app_removelast_last "" Hne) in Hpre at 1.
  rewrite length_app in Hpre. cbn in Hpre. lia.
Qed.

Lemma ancestor_ne p q : q ∈ ancestors p → q ≠ p.
Proof.
  intros (r & Hpre & Hne & ->)%elem_of_dirs_from. cbn [app].
  destruct p as [| x p]; [by apply prefix_nil_inv in Hpre |].
  by apply parent_shorter.
Qed.

Lemma can_make_parents_spec fs p :
  can_make_parents fs p = true ↔ ∀ q, q ∈ ancestors p → is_file fs q = false.
Proof.
  unfold can_make_parents. rewrite forallb_forall. split.
  - intros Hall q Hq. apply negb_true_iff, Hall. by apply list_elem_of_In.
  - intros Hall q Hq. apply negb_true_iff, Hall. by apply list_elem_of_In.
Qed.

(** Making the parent directories succeeds exactly when no regular file is
    in the way, ... *)
Lemma mkdir_parent_ok fs p :
  (mkdir_from [] (Path_parent p) fs).1 = inr tt ↔ can_make_parents fs p = true.
Proof.
  rewrite can_make_parents_spec. split.
  - intros Hok q Hq. unfold is_file.
    destruct (fs !! q) as [[| c] |] eqn:Hfs; [done | | done].
    apply elem_of_dirs_from in Hq as (r & Hpre & Hne & ->).
    pose proof (mkdir_from_makes_dirs _ [] fs r Hok Hpre Hne) as Hdir.
    rewrite (mkdir_from_preserves _ _ _ _ _ Hfs) in Hdir. discriminate.
  - intros Hfree. apply mkdir_from_succeeds. intros q c Hpre Hne Hfile.
    specialize (Hfree q). unfold is_file in Hfree. cbn [app] in Hfile.
    rewrite Hfile in Hfree. discriminate Hfree.
    apply elem_of_dirs_from. by exists q.
Qed.

(** ... it then leaves every one of them a directory, ... *)
Lemma mkdir_parent_dirs fs p q :
  (mkdir_from [] (Path_parent p) fs).1 = inr tt →
  q ∈ ancestors p → (mkdir_from [] (Path_parent p) fs).2 !! q = Some Dir.
Proof.
  intros Hok (r & Hpre & Hne & ->)%elem_of_dirs_from.
  by apply (mkdir_from_makes_dirs _ [] fs r).
Qed.

Lemma mkdir_parent_is_dir fs p :
  (mkdir_from [] (Path_parent p) fs).1 = inr tt →
  node_at (mkdir_from [] (Path_parent p) fs).2 (Path_parent p) = Some Dir.
Proof.
  intros Hok. destruct (Path_parent p) as [| x r] eqn:Hparent; [done |].
  cbn [node_at]. rewrite <- Hparent in *.
  apply mkdir_parent_dirs; [done |].
  apply elem_of_dirs_from. exists (Path_parent p).
  by rewrite Hparent.
Qed.

(** ... and never touches [p] itself. *)
Lemma mkdir_parent_target fs p :
  node_at (mkdir_from [] (Path_parent p) fs).2 p = node_at fs p.
Proof.
  destruct p as [| x p]; [done |]. cbn [node_at].
  apply mkdir_from_elsewhere. intros q Hpre Hne. cbn [app].
  by apply parent_shorter.
Qed.

Lemma mkdir_parent_target_lookup fs p :
  p ≠ [] → (mkdir_from [] (Path_parent p) fs).2 !! p = fs !! p.
Proof.
  intros Hne. pose proof (mkdir_parent_target fs p) as Ht.
  by destruct p.
Qed.
End Parents.

(** * Properties of the generation tool *)

Section Tool.
Context `{PyLib}.
Local Open Scope list_scope.
Implicit Types (fs : FS) (w : World) (out : string).

Lemma generate_test_domain_returns w :
  generate_test_domain w = (inr test_domain, w).
Proof. reflexivity. Qed.

(** With an input path: the directories are made, one line is printed,
    and the call raises. *)
Lemma convert_with_input inp out w :
  convert_gazebo_to_domain (Some inp) out w =
    match mkdir_from [] (Path_parent (Path_of_string out)) (files w) with
    | (inl e, fs1) => (inl e, mkWorld fs1 (stdout w))
    | (inr _, fs1) =>
        (inl (NotImplementedError not_implemented_message),
         mkWorld fs1 (stdout w ++ [("Parsing Gazebo JSON from " ++ inp)%string]))
    end.
Proof.
  unfold convert_gazebo_to_domain, mbind, M_bind, Path_mkdir, print, raise.
  by destruct (mkdir_from _ _ _) as [[e | []] fs1].
Qed.

(** Without one: the directories are made, the file is opened and the
    test data written to it, and the summary printed. *)
Lemma convert_without_input out w :
  convert_gazebo_to_domain None out w =
    let p := Path_of_string out in
    match mkdir_from [] (Path_parent p) (files w) with
    | (inl e, fs1) => (inl e, mkWorld fs1 (stdout w))
    | (inr _, fs1) =>
        let greeted := stdout w ++ ["No Gazebo JSON provided - generating test data"%string] in
        match node_at fs1 (Path_parent p) with
        | Some Dir =>
            match node_at fs1 p with
            | Some Dir => (inl IsADirectoryError, mkWorld fs1 greeted)
            | _ =>
                (inr tt, mkWorld (<[p := File (yaml_dump test_domain)]> fs1)
                                 (stdout w ++ test_data_report out))
            end
        | Some (File _) => (inl NotADirectoryError, mkWorld fs1 greeted)
        | None => (inl FileNotFoundError, mkWorld fs1 greeted)
        end
    end.
Proof.
  unfold convert_gazebo_to_domain, mbind, M_bind, Path_mkdir, print, open_w.
  cbn zeta. destruct (mkdir_from _ _ _) as [[e | []] fs1]; [done |].
  rewrite generate_test_domain_returns. cbn [files stdout].
  destruct (node_at fs1 (Path_parent _)) as [[| c] |]; [| done | done].
  assert (Hwritten : ∀ fs2,
    fs2 = <[Path_of_string out := File ""]> fs1 →
    <[Path_of_string out :=
        File (match fs2 !! Path_of_string out with
              | Some (File c) => c
              | _ => ""
              end ++ yaml_dump test_domain)]> fs2
    = <[Path_of_string out := File (yaml_dump test_domain)]> fs1).
  { intros fs2 ->. by rewrite lookup_insert_eq, insert_insert_eq. }
  destruct (node_at fs1 (Path_of_string out)) as [[| c] |]; [done | |];
    unfold write; cbn [files stdout]; rewrite (Hwritten _ eq_refl);
    cbn; unfold test_data_report; by rewrite <- !app_assoc.
Qed.

(** A run with an input path, and a run without one, as processes. *)
Lemma run_with_input inp out fs :
  run (mkNamespace (Some inp) out) fs =
    match mkdir_from [] (Path_parent (Path_of_string out)) fs with
    | (inl e, fs1) => mkOutcome 1 (Some e) (mkWorld fs1 [])
    | (inr _, fs1) =>
        mkOutcome 1 (Some (NotImplementedError not_implemented_message))
          (mkWorld fs1 [("Parsing Gazebo JSON from " ++ inp)%string])
    end.
Proof.
  unfold run, script, mbind, M_bind. cbn [input output].
  rewrite convert_with_input. cbn [files stdout].
  by destruct (mkdir_from _ _ _) as [[e | []] fs1].
Qed.

Lemma run_without_input out fs :
  run (mkNamespace None out) fs =
    let p := Path_of_string out in
    let greeted := ["No Gazebo JSON provided - generating test data"%string] in
    match mkdir_from [] (Path_parent p) fs with
    | (inl e, fs1) => mkOutcome 1 (Some e) (mkWorld fs1 [])
    | (inr _, fs1) =>
        if is_dir fs1 p
        then mkOutcome 1 (Some IsADirectoryError) (mkWorld fs1 greeted)
        else mkOutcome 0 None
               (mkWorld (<[p := File (yaml_dump test_domain)]> fs1)
                        (test_data_report out ++ [closing_line out]))
    end.
Proof.
  unfold run, script, mbind, M_bind. cbn [input output].
  rewrite convert_without_input. cbn [files stdout]. cbn zeta.
  pose proof (mkdir_parent_is_dir fs (Path_of_string out)) as Hparent.
  destruct (mkdir_from _ _ _) as [[e | []] fs1]; [done |].
  cbn [fst snd] in Hparent. rewrite Hparent by done. unfold is_dir.
  by destruct (node_at fs1 (Path_of_string out)) as [[| c] |].
Qed.

(** Whether a run without input succeeds, for an ordinary output path, is
    decided by the file system it starts from. *)
Lemma run_without_input_exit out fs :
  ordinary_path out = true →
  exit_code (run (mkNamespace None out) fs) =
    if can_write fs (Path_of_string out) then 0%Z else 1%Z.
Proof.
  intros _. rewrite run_without_input. cbn zeta. unfold can_write.
  pose proof (mkdir_parent_ok fs (Path_of_string out)) as Hok.
  pose proof (mkdir_parent_target fs (Path_of_string out)) as Htarget.
  destruct (mkdir_from _ _ _) as [[e | []] fs1]; cbn [fst snd] in *.
  - destruct (can_make_parents fs _); [| done].
    by destruct Hok as [_ Hok]; specialize (Hok eq_refl).
  - destruct Hok as [Hok _]. rewrite (Hok eq_refl). cbn [andb].
    unfold is_dir. rewrite Htarget.
    by destruct (node_at fs (Path_of_string out)) as [[| c] |].
Qed.


Lemma run_without_input_success out fs :
  can_write fs (Path_of_string out) = true →
  run (mkNamespace None out) fs =
    mkOutcome 0 None
      (mkWorld (<[Path_of_string out := File (yaml_dump test_domain)]>
                  (mkdir_from [] (Path_parent (Path_of_string out)) fs).2)
               (test_data_report out ++ [closing_line out])).
Proof.
  intros [Hparents Htarget%negb_true_iff]%andb_true_iff.
  apply mkdir_parent_ok in Hparents.
  rewrite run_without_input. cbn zeta.
  pose proof (mkdir_parent_target fs (Path_of_string out)) as Hsame.
  destruct (mkdir_from _ _ _) as [[e | []] fs1]; [done |]. cbn [fst snd] in *.
  unfold is_dir in *. rewrite Hsame.
  by destruct (node_at fs (Path_of_string out)) as [[| c] |].
Qed.


(** C4: run without an input path and with the output path
    [configs/domain.yaml] (which is also the default), on a file system
    where that file can be written, the tool exits with status 0 and the
    file holds the dump of the domain that [generate_test_domain] returns:
    four zones with the ids zone_SE, zone_SW, zone_NW and zone_NE, three
    shelves, one table, two doors, three items, and a grid 1600 wide and
    800 high. *)
Theorem default_run_writes_test_domain fs :
  can_write fs (Path_of_string "configs/domain.yaml") = true →
  let r := run (parse_args None (Some "configs/domain.yaml"%string)) fs in
  parse_args None None = parse_args None (Some "configs/domain.yaml"%string)
  ∧ exit_code r = 0%Z
  ∧ uncaught r = None
  ∧ ∃ d : pyval,
      (∀ w, generate_test_domain w = (inr d, w))
      ∧ files (world r) !! Path_of_string "configs/domain.yaml"
          = Some (File (yaml_dump d))
      ∧ ids_of "zones" d
          = [PStr "zone_SE"; PStr "zone_SW"; PStr "zone_NW"; PStr "zone_NE"]
      ∧ length (records "zones" d) = 4%nat
      ∧ length (records "shelves" d) = 3%nat
      ∧ length (records "tables" d) = 1%nat
      ∧ length (records "doors" d) = 2%nat
      ∧ length (records "items" d) = 3%nat
      ∧ field "environment" d ≫= field "width" = Some (PInt 1600)
      ∧ field "environment" d ≫= field "height" = Some (PInt 800).
Proof.
  intros Hcan r. subst r. unfold parse_args, or_default.
  rewrite (run_without_input_success _ _ Hcan). cbn [exit_code uncaught world files].
  do 3 (split; [reflexivity |]).
  exists test_domain. split; [intros w; reflexivity |].
  split; [apply lookup_insert_eq |].
  repeat split.
Qed.


(** A second run without an input path, with the same output path and on
    the file system the first run left, ends as the first did and leaves
    every file as the first left it: after a first run that succeeded the
    file holds the dump of the test domain; after one that failed no regular
    file has been created or changed. *)
Lemma rerun_same_outcome (output_arg : arg string) fs :
  let args := parse_args None output_arg in
  let p := Path_of_string (output args) in
  let first := run args fs in
  let second := run args (files (world first)) in
  second = first
  ∧ files (world second) !! p = files (world first) !! p
  ∧ ((exit_code first = 0%Z
      ∧ files (world first) !! p = Some (File (yaml_dump test_domain)))
     ∨ (exit_code first = 1%Z
        ∧ ∀ q c, files (world first) !! q = Some (File c) ↔ fs !! q = Some (File c))).
Proof.
  intros args p first second.
  assert (Hsame : second = first ∧
    ((exit_code first = 0%Z
      ∧ files (world first) !! p = Some (File (yaml_dump test_domain)))
     ∨ (exit_code first = 1%Z
        ∧ ∀ q c, files (world first) !! q = Some (File c) ↔ fs !! q = Some (File c))));
    [| destruct Hsame as [Heq Hcases]; by rewrite Heq].
  subst second first p args. unfold parse_args. cbn [output].
  set (out := or_default _ output_arg). set (p := Path_of_string out).
  rewrite (run_without_input out fs). cbn zeta. fold p.
  pose proof (mkdir_from_again (Path_parent p) [] fs) as Hagain.
  pose proof (mkdir_from_keeps_files (Path_parent p) [] fs) as Hfiles.
  pose proof (mkdir_parent_dirs fs p) as Hdirs.
  destruct (mkdir_from [] (Path_parent p) fs) as [[e | []] fs1] eqn:Hmk;
    cbn [fst snd] in *.
  - (* the directories cannot be made: neither run gets further *)
    cbn [world files]. rewrite run_without_input. cbn zeta. fold p.
    rewrite Hagain. split; [done | right]. by split; [| apply Hfiles].
  - destruct (is_dir fs1 p) eqn:Hdir; cbn [world files].
    + (* a directory stands at the output path: both runs stop at [open] *)
      rewrite run_without_input. cbn zeta. fold p. rewrite Hagain, Hdir.
      split; [done | right]. by split; [| apply Hfiles].
    + (* the file is written, and written again with the same text *)
      assert (Hp : p ≠ []) by (by intros Hnil; rewrite Hnil in Hdir).
      assert (Hcan : can_write (<[p := File (yaml_dump test_domain)]> fs1) p = true).
      { unfold can_write. apply andb_true_iff. split.
        - apply can_make_parents_spec. intros q Hq. unfold is_file.
          rewrite lookup_insert_ne by (by apply not_eq_sym, ancestor_ne).
          by rewrite (Hdirs q eq_refl Hq).
        - unfold is_dir. destruct p; [done |]. cbn [node_at].
          by rewrite lookup_insert_eq. }
      rewrite (run_without_input_success out _ Hcan). fold p.
      split; [| left; split; [done | apply lookup_insert_eq]].
      f_equal. f_equal.
      rewrite mkdir_from_noop; [cbn [snd]; apply insert_insert_eq |].
      intros q Hpre Hne. cbn [app].
      rewrite lookup_insert_ne by (by apply not_eq_sym, parent_shorter).
      apply (Hdirs q eq_refl). apply elem_of_dirs_from. by exists q.
Qed.

(** C7: two runs without an input path and with the same ordinary output
    path, the second on the file system the first left, starting where the
    output file can be written: both exit with status 0, each leaves at the
    output path a regular file holding the dump of the test domain, byte for
    byte the same, and the second run ends in every respect as the first
    did.  (The default output path is [configs/domain.yaml] passed
    explicitly.) *)
Theorem second_run_repeats_first out fs :
  ordinary_path out = true →
  can_write fs (Path_of_string out) = true →
  let args := parse_args None (Some out) in
  let first := run args fs in
  let second := run args (files (world first)) in
  exit_code first = 0%Z
  ∧ exit_code second = 0%Z
  ∧ files (world first) !! Path_of_string out
      = Some (File (yaml_dump test_domain))
  ∧ files (world second) !! Path_of_string out
      = Some (File (yaml_dump test_domain))
  ∧ second = first.
Proof.
  intros _ Hcan. cbv zeta.
  destruct (rerun_same_outcome (Some out) fs) as [Hsame _]. cbv zeta in Hsame.
  unfold parse_args, or_default in *. rewrite Hsame.
  rewrite (run_without_input_success _ _ Hcan). cbn [exit_code world files].
  by repeat split; try apply lookup_insert_eq.
Qed.

End Tool.

Section GeneratedDomain.
Local Open Scope list_scope.

(** C10: [generate_test_domain] depends on nothing. There is one
    dictionary that every call returns, in whatever world it is made, and
    the call leaves that world as it found it; two calls therefore return
    equal dictionaries, key for key and in the same order. *)
Theorem generate_test_domain_is_constant :
  ∃ d : pyval, ∀ w : World, generate_test_domain w = (inr d, w).
Proof. exists test_domain. intros w. reflexivity. Qed.

(** C6: in the domain that the tool emits, the zone of every shelf and
    of every table is the id of an entry of [zones], and the initial
    location of every item is the id of a shelf or of a table. *)
Theorem emitted_domain_references_resolve :
  ∀ w : World, ∃ d : pyval,
    generate_test_domain w = (inr d, w) ∧ referential_integrity d.
Proof.
  intros w. exists test_domain. split; [reflexivity |].
  split; intros r Hr; vm_compute in Hr;
    repeat (apply in_list_inv in Hr as [-> | Hr]);
    try (by apply elem_of_nil in Hr);
    eexists; (split; [reflexivity |]); vm_compute;
    repeat first [apply list_elem_of_here | apply list_elem_of_further].
Qed.
End GeneratedDomain.

(** * The tool on an empty disk

    The theorems above that assume something of the file system, applied
    to the run from an empty working directory. *)

Lemma default_run_on_empty_disk :
  can_write ∅ (Path_of_string "configs/domain.yaml") = true
  ∧ exit_code (run (H := flow_lib) (parse_args None None) ∅) = 0%Z.
Proof.
  split; [reflexivity |].
  exact (proj1 (proj2 (default_run_writes_test_domain (H := flow_lib) ∅ eq_refl))).
Defined.



(** * What a run does to the file system and prints *)

Section Runs.
Context `{PyLib}.
Local Open Scope list_scope.
Implicit Types (fs : FS) (out inp : string) (p q : Path).

Lemma mkdir_parent_elsewhere fs p q :
  q ∉ ancestors p → (mkdir_from [] (Path_parent p) fs).2 !! q = fs !! q.
Proof.
  intros Hq. apply mkdir_from_elsewhere. intros r Hpre Hne Heq.
  apply Hq, elem_of_dirs_from. by exists r.
Qed.

Lemma files_after_run_with_input inp out fs :
  files (world (run (mkNamespace (Some inp) out) fs))
  = (mkdir_from [] (Path_parent (Path_of_string out)) fs).2.
Proof.
  rewrite run_with_input. by destruct (mkdir_from _ _ _) as [[e | []] fs1].
Qed.

(** A run for an ordinary output path, with or without an input path,
    changes nothing but the node at the output path and the directories on
    the way to it; a directory that exists stays a directory, and nothing
    that exists is removed. *)
Theorem run_touches_only_its_output (args : Namespace) fs :
  ordinary_path (output args) = true →
  let p := Path_of_string (output args) in
  let fs' := files (world (run args fs)) in
  (∀ q, q ≠ p → q ∉ ancestors p → fs' !! q = fs !! q)
  ∧ (∀ q, fs !! q = Some Dir → fs' !! q = Some Dir)
  ∧ (∀ q, is_Some (fs !! q) → is_Some (fs' !! q)).
Proof.
  intros _. destruct args as [[inp |] out]; cbv zeta; cbn [output].
  - rewrite files_after_run_with_input. repeat split.
    + intros q _ Hq. by apply mkdir_parent_elsewhere.
    + intros q Hq. by apply mkdir_from_preserves.
    + intros q [n Hq]. exists n. by apply mkdir_from_preserves.
  - rewrite run_without_input. cbn zeta.
    set (p := Path_of_string out).
    pose proof (mkdir_parent_elsewhere fs p) as Hframe.
    pose proof (mkdir_from_preserves (Path_parent p) [] fs) as Hkeep.
    destruct (mkdir_from [] (Path_parent p) fs) as [[e | []] fs1];
      cbn [fst snd world files] in *.
    + repeat split; [by intros q _ Hq; apply Hframe | by intros q Hq; apply Hkeep |].
      intros q [n Hq]. exists n. by apply Hkeep.
    + destruct (is_dir fs1 p) eqn:Hdir; cbn [world files].
      * repeat split; [by intros q _ Hq; apply Hframe | by intros q Hq; apply Hkeep |].
        intros q [n Hq]. exists n. by apply Hkeep.
      * repeat split.
        -- intros q Hne Hq. rewrite lookup_insert_ne by done. by apply Hframe.
        -- intros q Hq. apply Hkeep in Hq.
           rewrite lookup_insert_ne; [done |]. intros <-.
           unfold is_dir in Hdir. destruct p; [done |]. cbn [node_at] in Hdir.
           by rewrite Hq in Hdir.
        -- intros q [n Hq]. destruct (decide (p = q)) as [<- | Hne].
           ++ rewrite lookup_insert_eq. by eexists.
           ++ rewrite lookup_insert_ne by done. exists n. by apply Hkeep.
Qed.

Lemma lines_of_nonempty s : lines_of s ≠ [].
Proof.
  destruct s as [| c s]; cbn; [done |].
  destruct (Ascii.eqb c "010"); [done |]. by destruct (lines_of s).
Qed.

Lemma lines_of_print (line rest : string) :
  lines_of (line ++ newline ++ rest) = lines_of line ++ lines_of rest.
Proof.
  induction line as [| c line IH]; [done |].
  change (lines_of (String c (line +:+ newline +:+ rest))
          = lines_of (String c line) ++ lines_of rest).
  cbn [lines_of]. rewrite IH.
  destruct (Ascii.eqb c "010"); [done |].
  pose proof (lines_of_nonempty line). by destruct (lines_of line).
Qed.

Lemma lines_of_one_line s : one_line s = true → lines_of s = [s].
Proof.
  induction s as [| c s IH]; [done |]. cbn [one_line lines_of].
  intros [Hc Hs]%andb_true_iff. apply negb_true_iff in Hc.
  by rewrite Hc, (IH Hs).
Qed.

Lemma one_line_app (a b : string) :
  one_line (a ++ b) = one_line a && one_line b.
Proof.
  induction a as [| c a IH]; [done |].
  change (one_line (String c (a +:+ b)) = one_line (String c a) && one_line b).
  cbn [one_line]. by rewrite IH, andb_assoc.
Qed.

Lemma lines_of_last_print (printed : list string) (line : string) :
  ∃ before,
    lines_of (printed_text (printed ++ [line]))
    = before ++ lines_of line ++ [""%string].
Proof.
  induction printed as [| l printed [before IH]].
  - exists []. unfold printed_text. cbn [app fold_right]. by rewrite lines_of_print.
  - exists (lines_of l ++ before).
    unfold printed_text in *. cbn [app fold_right].
    by rewrite lines_of_print, IH, <- app_assoc.
Qed.

(** The closing line, which says that the file was generated, is a line
    of the text on standard output exactly for the runs that end with status
    0; this for an ordinary output path and an input path that have no
    newline in them (with one in the input path, the line that names it can
    end in anything). *)
Theorem completion_message_iff_success (args : Namespace) fs :
  ordinary_path (output args) = true →
  one_line (output args) = true →
  one_line (from_option id ""%string (input args)) = true →
  closing_line (output args)
    ∈ lines_of (printed_text (stdout (world (run args fs))))
  ↔ exit_code (run args fs) = 0%Z.
Proof.
  intros _ Hout Hinp. destruct args as [[inp |] out]; cbn in Hout, Hinp;
    cbn [output input].
  - rewrite run_with_input.
    destruct (mkdir_from _ _ _) as [[e | []] fs1]; cbn [exit_code world stdout].
    + split; [| done]. intros Hin%list_elem_of_singleton. discriminate.
    + split; [| done]. cbn [printed_text fold_right].
      rewrite lines_of_print, lines_of_one_line
        by (rewrite one_line_app; by rewrite Hinp).
      intros [Hin | Hin%list_elem_of_singleton]%elem_of_cons; discriminate.
  - rewrite run_without_input. cbn zeta.
    destruct (mkdir_from _ _ _) as [[e | []] fs1]; cbn [exit_code world stdout].
    + split; [| done]. intros Hin%list_elem_of_singleton. discriminate.
    + destruct (is_dir fs1 _); cbn [exit_code world stdout].
      * split; [| done].
        intros [Hin | Hin%list_elem_of_singleton]%elem_of_cons; discriminate.
      * split; [done | intros _].
        destruct (lines_of_last_print (test_data_report out) (closing_line out))
          as [before ->].
        rewrite lines_of_one_line
          by (unfold closing_line; rewrite !one_line_app; by rewrite Hout).
        apply elem_of_app. right. apply list_elem_of_here.
Qed.


(** The ways a run without an input path, for an ordinary output path, can
    end. Either the file system
    lets the output file be written and no exception is raised; or a
    directory stands at the output path, and the run stops at [open] with
    the first line printed; or a regular file stands where a directory is
    needed, and the run stops in [mkdir] with nothing printed.  A run that
    fails creates or changes no regular file, and no run ends in another
    exception: the keys the summary reads are always there. *)
Theorem run_without_input_ends_in_one_of_three_ways out fs :
  ordinary_path out = true →
  let p := Path_of_string out in
  let r := run (mkNamespace None out) fs in
  (can_write fs p = true ∧ uncaught r = None)
  ∨ (can_make_parents fs p = true ∧ is_dir fs p = true
     ∧ uncaught r = Some IsADirectoryError
     ∧ stdout (world r) = [greeting]
     ∧ ∀ q c, files (world r) !! q = Some (File c) ↔ fs !! q = Some (File c))
  ∨ (can_make_parents fs p = false
     ∧ (uncaught r = Some FileExistsError ∨ uncaught r = Some NotADirectoryError)
     ∧ stdout (world r) = []
     ∧ ∀ q c, files (world r) !! q = Some (File c) ↔ fs !! q = Some (File c)).
Proof.
  intros _. cbv zeta. rewrite run_without_input. cbn zeta. unfold can_write.
  set (p := Path_of_string out).
  pose proof (mkdir_parent_ok fs p) as Hok.
  pose proof (mkdir_parent_target fs p) as Htarget.
  pose proof (mkdir_from_error (Path_parent p) [] fs) as Herr.
  pose proof (mkdir_from_keeps_files (Path_parent p) [] fs) as Hfiles.
  destruct (mkdir_from [] (Path_parent p) fs) as [[e | []] fs1];
    cbn [fst snd] in *.
  - right; right. cbn [uncaught world stdout files].
    split; [| split; [| split; [done | apply Hfiles]]].
    + destruct (can_make_parents fs p); [| done].
      by destruct Hok as [_ Hok]; specialize (Hok eq_refl).
    + destruct (Herr e eq_refl) as [-> | ->]; [by left | by right].
  - destruct Hok as [Hok _]. specialize (Hok eq_refl).
    assert (Hdir : is_dir fs1 p = is_dir fs p) by (unfold is_dir; by rewrite Htarget).
    rewrite Hdir. destruct (is_dir fs p); cbn [uncaught world stdout files].
    + right; left. by repeat split; try apply Hfiles.
    + left. by rewrite Hok.
Qed.

(** A run without an input path, for an ordinary output path that the
    file system allows, in full: the
    status is 0; the output file holds the dump of the test domain whatever
    it held before, the directories on the way to it exist, and every other
    path is as it was; and the lines printed are the greeting, the path, the
    summary with the numbers of shelves, items and zones and the grid of the
    domain written, and the closing line, in this order. *)
Theorem successful_run_in_full out fs :
  ordinary_path out = true →
  can_write fs (Path_of_string out) = true →
  let p := Path_of_string out in
  let r := run (mkNamespace None out) fs in
  let count k := PInt (Z.of_nat (length (records k test_domain))) in
  let size k := from_option py_str ""%string (field "environment" test_domain ≫= field k) in
  exit_code r = 0%Z
  ∧ (∀ q, files (world r) !! q =
          if decide (q = p) then Some (File (yaml_dump test_domain))
          else if decide (q ∈ ancestors p) then Some Dir
          else fs !! q)
  ∧ stdout (world r) =
      [ greeting;
        ("Generated domain config at " ++ Path_str (Path_root out) p)%string;
        (newline ++ "Domain Summary:")%string;
        ("  - Shelves: " ++ py_str (count "shelves"))%string;
        ("  - Items: " ++ py_str (count "items"))%string;
        ("  - Zones: " ++ py_str (count "zones"))%string;
        ("  - Grid: " ++ size "width" ++ "x" ++ size "height")%string;
        closing_line out ].
Proof.
  intros _ Hcan. cbv zeta. rewrite (run_without_input_success _ _ Hcan).
  cbn [exit_code world files stdout].
  apply andb_true_iff in Hcan as [Hparents _]. apply mkdir_parent_ok in Hparents.
  split; [done |]. split; [| reflexivity].
  intros q. destruct (decide (q = Path_of_string out)) as [-> | Hne].
  - apply lookup_insert_eq.
  - rewrite lookup_insert_ne by done.
    destruct (decide (q ∈ ancestors (Path_of_string out))) as [Hq | Hq].
    + by apply mkdir_parent_dirs.
    + by apply mkdir_parent_elsewhere.
Qed.
End Runs.

Lemma overwriting_run :
  ordinary_path "configs/domain.yaml" = true
  ∧ can_write {[ ["configs"] := Dir; ["configs"; "domain.yaml"] := File "stale" ]}
    (Path_of_string "configs/domain.yaml") = true
  ∧ files (world (run (H := flow_lib) (mkNamespace None "configs/domain.yaml")
                    {[ ["configs"] := Dir;
                       ["configs"; "domain.yaml"] := File "stale" ]}))
      !! ["configs"; "domain.yaml"]
    = Some (File (render test_domain)).
Proof.
  assert (Hcan : can_write {[ ["configs"] := Dir;
                              ["configs"; "domain.yaml"] := File "stale" ]}
                   (Path_of_string "configs/domain.yaml") = true)
    by (vm_compute; reflexivity).
  split; [reflexivity |]. split; [exact Hcan |].
  exact (proj1 (proj2 (successful_run_in_full (H := flow_lib)
                         "configs/domain.yaml" _ eq_refl Hcan))
           ["configs"; "domain.yaml"]).
Defined.

(** * The action types and the generated domain *)

Section Catalogue.
Local Open Scope list_scope.

(** Looking a member up by its value gives that member back, and a lookup
    that succeeds returns a member with the value asked for: the five values
    are distinct, none is an alias, and any other string is refused. *)
Theorem action_type_value_round_trip :
  (∀ a, ActionType_of_value (ActionType_value a) = Some a)
  ∧ (∀ v a, ActionType_of_value v = Some a → ActionType_value a = v)
  ∧ (∀ v, ActionType_of_value v = None ↔
          ∀ a, ActionType_value a ≠ v).
Proof.
  split; [by intros [] |]. split.
  - intros v a Hfind. apply find_some in Hfind as [_ Heq].
    by apply String.eqb_eq in Heq.
  - intros v. split.
    + intros Hnone a Heq.
      assert (Hin : In a ActionType_members) by (destruct a; cbn; tauto).
      pose proof (find_none _ _ Hnone a Hin) as Hneq. cbn beta in Hneq.
      apply String.eqb_eq in Heq. by rewrite Heq in Hneq.
    + intros Hne. unfold ActionType_of_value.
      destruct (List.find _ _) as [a |] eqn:Hfind; [| done].
      apply find_some in Hfind as [_ Heq%String.eqb_eq]. by destruct (Hne a).
Qed.

Ltac not_among :=
  let Hin := fresh "Hin" in
  intros Hin;
  repeat (apply in_list_inv in Hin as [Hin | Hin]; [discriminate |]);
  by apply elem_of_nil in Hin.

(** In the generated domain every zone, shelf, table, door and item has
    an id, and no id occurs twice, not even across the five lists: an id
    names one thing. *)
Theorem generated_ids_are_unique :
  length (all_ids test_domain) = length (all_records test_domain)
  ∧ NoDup (all_ids test_domain).
Proof.
  split; [reflexivity |].
  vm_compute. repeat (apply NoDup_cons; split; [not_among |]). apply NoDup_nil_2.
Qed.

(** The zones of the generated domain tile its grid: every point of the
    grid lies in the bounds of exactly one zone, and a point off the grid
    lies in none. *)
Theorem generated_zones_tile_the_grid :
  field "environment" test_domain ≫= int_field "width" = Some 1600%Z
  ∧ field "environment" test_domain ≫= int_field "height" = Some 800%Z
  ∧ ∀ x y : Z,
      length (zones_at test_domain x y)
      = if ((0 <=? x) && (x <? 1600) && (0 <=? y) && (y <? 800))%Z
        then 1%nat else 0%nat.
Proof.
  do 2 (split; [reflexivity |]). intros x y.
  cbv -[Z.leb Z.ltb].
  repeat match goal with
         | |- context [(?a <=? ?b)%Z] => destruct (Z.leb_spec a b)
         | |- context [(?a <? ?b)%Z] => destruct (Z.ltb_spec a b)
         end; cbn; first [reflexivity | lia].
Qed.

(** Every shelf and table of the generated domain stands in the zone it
    names: its position lies in the bounds of exactly one zone, and that
    zone's id is the furniture's [zone]. *)
Theorem generated_furniture_stands_in_its_zone :
  ∀ r, r ∈ records "shelves" test_domain ++ records "tables" test_domain →
    ∃ x y z,
      field "position" r ≫= point_of = Some (x, y)
      ∧ zones_at test_domain x y = [z]
      ∧ is_Some (field "zone" r)
      ∧ field "id" z = field "zone" r.
Proof.
  intros r Hr. vm_compute in Hr.
  repeat (apply in_list_inv in Hr as [-> | Hr]);
    try (by apply elem_of_nil in Hr);
    do 3 eexists; (split; [reflexivity |]); (split; [reflexivity |]);
    (split; [by eexists | reflexivity]).
Qed.
End Catalogue.

Lemma kitting_table_stands_in_its_zone :
  PDict [("id", PStr "kitting_table"); ("position", pair_of 650 710);
         ("size", pair_of 300 90); ("zone", PStr "zone_NW")]
    ∈ (records "shelves" test_domain ++ records "tables" test_domain)%list
  ∧ ∃ x y z,
      field "position"
        (PDict [("id", PStr "kitting_table"); ("position", pair_of 650 710);
                ("size", pair_of 300 90); ("zone", PStr "zone_NW")])
        ≫= point_of = Some (x, y)
      ∧ zones_at test_domain x y = [z]
      ∧ field "id" z = Some (PStr "zone_NW").
Proof.
  assert (Hin : PDict [("id", PStr "kitting_table"); ("position", pair_of 650 710);
                       ("size", pair_of 300 90); ("zone", PStr "zone_NW")]
                  ∈ (records "shelves" test_domain
                       ++ records "tables" test_domain)%list).
  { vm_compute. do 3 apply list_elem_of_further. apply list_elem_of_here. }
  split; [exact Hin |].
  destruct (generated_furniture_stands_in_its_zone _ Hin)
    as (x & y & z & Hpos & Hzone & _ & Hid).
  exists x, y, z. split; [exact Hpos |]. split; [exact Hzone |]. exact Hid.
Defined.

(** * The revised statements at concrete inputs *)

Lemma even_belief_names_A :
  validate_belief_state even_belief = true
  ∧ ∃ p, BeliefState.distribution even_belief !! "A" = Some p
       ∧ ∀ k q, BeliefState.distribution even_belief !! k = Some q →
           PrimFloat.leb q p = true
           ∧ (PrimFloat.eqb q p = true → k = "A" ∨ String.ltb "A" k = true).
Proof.
  assert (Hvalid : validate_belief_state even_belief = true)
    by (vm_compute; reflexivity).
  split; [exact Hvalid |].
  exact (proj2 (proj2 (valid_belief_names_the_most_likely even_belief Hvalid))).
Defined.

Lemma two_runs_on_empty_disk :
  ordinary_path "configs/domain.yaml" = true
  ∧ can_write ∅ (Path_of_string "configs/domain.yaml") = true
  ∧ exit_code (run (H := flow_lib) (parse_args None None) ∅) = 0%Z
  ∧ exit_code (run (H := flow_lib) (parse_args None None)
                 (files (world (run (H := flow_lib) (parse_args None None) ∅))))
      = 0%Z.
Proof.
  assert (Hpath : ordinary_path "configs/domain.yaml" = true) by reflexivity.
  assert (Hcan : can_write ∅ (Path_of_string "configs/domain.yaml") = true)
    by reflexivity.
  do 2 (split; [assumption |]).
  destruct (second_run_repeats_first (H := flow_lib) "configs/domain.yaml" ∅
              Hpath Hcan) as (Hfirst & Hsecond & _).
  split; [exact Hfirst | exact Hsecond].
Defined.

Lemma exit_status_on_empty_disk :
  ordinary_path "configs/domain.yaml" = true
  ∧ exit_code (run (H := flow_lib) (mkNamespace None "configs/domain.yaml") ∅)
      = 0%Z.
Proof.
  split; [reflexivity |].
  exact (run_without_input_exit (H := flow_lib) "configs/domain.yaml" ∅ eq_refl).
Defined.

Lemma bystander_file_is_kept :
  ordinary_path "configs/domain.yaml" = true
  ∧ files (world (run (H := flow_lib) (mkNamespace None "configs/domain.yaml")
                    {[ ["notes.txt"] := File "keep" ]}))
      !! ["notes.txt"]
    = Some (File "keep").
Proof.
  split; [reflexivity |].
  refine (proj1 (run_touches_only_its_output (H := flow_lib)
                   (mkNamespace None "configs/domain.yaml")
                   {[ ["notes.txt"] := File "keep" ]} eq_refl)
            ["notes.txt"] _ _).
  - discriminate.
  - vm_compute. intros Hin. apply in_list_inv in Hin as [Hin | Hin];
      [discriminate | by apply elem_of_nil in Hin].
Defined.

Lemma closing_line_on_empty_disk :
  ordinary_path "configs/domain.yaml" = true
  ∧ one_line "configs/domain.yaml" = true
  ∧ closing_line "configs/domain.yaml"
      ∈ lines_of (printed_text
                    (stdout (world (run (H := flow_lib)
                                      (mkNamespace None "configs/domain.yaml") ∅)))).
Proof.
  do 2 (split; [reflexivity |]).
  apply (completion_message_iff_success (H := flow_lib)
           (mkNamespace None "configs/domain.yaml") ∅ eq_refl eq_refl eq_refl).
  reflexivity.
Defined.

Lemma run_blocked_by_a_file :
  ordinary_path "configs/domain.yaml" = true
  ∧ (uncaught (run (H := flow_lib) (mkNamespace None "configs/domain.yaml")
                 {[ ["configs"] := File "x" ]}) = Some FileExistsError
     ∨ uncaught (run (H := flow_lib) (mkNamespace None "configs/domain.yaml")
                   {[ ["configs"] := File "x" ]}) = Some NotADirectoryError)
  ∧ stdout (world (run (H := flow_lib) (mkNamespace None "configs/domain.yaml")
                     {[ ["configs"] := File "x" ]})) = [].
Proof.
  assert (Hpath : ordinary_path "configs/domain.yaml" = true) by reflexivity.
  split; [exact Hpath |].
  destruct (run_without_input_ends_in_one_of_three_ways (H := flow_lib)
              "configs/domain.yaml" {[ ["configs"] := File "x" ]} Hpath)
    as [[Hcan _] | [(Hcan & _) | (_ & Herr & Hout & _)]].
  - vm_compute in Hcan. discriminate.
  - vm_compute in Hcan. discriminate.
  - split; [exact Herr | exact Hout].
Defined.
